(** * @graphile/logger: a shallow embedding of [src/index.ts]

    The library is a scope-chaining [Logger] class over a user-supplied
    [LogFunctionFactory], plus a console backend.  JavaScript objects have
    identity and are passed by reference, so scopes live in a heap of
    property maps and a [Logger] is itself a heap cell; user callbacks are
    state transformers that may also throw. *)

From Stdlib Require Import ZArith Ascii String.
From stdpp Require Import gmap strings list fin_maps.

Local Open Scope string_scope.
Local Open Scope list_scope.

(** ** Values and objects *)

(** Heap addresses of JavaScript objects. *)
Abbreviation loc := positive.

(** The JavaScript values a scope or a format parameter can hold.  Numbers
    are never computed on by this library, only carried around, so their
    payload is an integer here. *)
Inductive val : Type :=
  | VUndefined
  | VNull
  | VBool (b : bool)
  | VNumber (n : Z)
  | VString (s : string)
  | VObject (l : loc).

#[global] Instance val_eq_dec : EqDecision val.
Proof. solve_decision. Defined.

#[global] Instance val_inhabited : Inhabited val := populate VUndefined.

(** A plain object: its own enumerable string-keyed properties.  [LogMeta]
    and every [Partial<TLogScope>] are such objects. *)
Abbreviation obj := (gmap string val).

(** ** [LogLevel] (index.ts, lines 13-38) *)

Inductive LogLevel : Type := ERROR | WARNING | INFO | DEBUG.

#[global] Instance LogLevel_eq_dec : EqDecision LogLevel.
Proof. solve_decision. Defined.

(** The string each member of the [const enum] stands for at run time. *)
Definition LogLevel_value (level : LogLevel) : string :=
  match level with
  | ERROR => "error"
  | WARNING => "warning"
  | INFO => "info"
  | DEBUG => "debug"
  end.

(** [String.prototype.toUpperCase] on the ASCII range, which is all the
    level strings use. *)
Definition upper_ascii (c : ascii) : ascii :=
  let n := nat_of_ascii c in
  if (97 <=? n)%nat && (n <=? 122)%nat then ascii_of_nat (n - 32) else c.

Fixpoint toUpperCase (s : string) : string :=
  match s with
  | EmptyString => EmptyString
  | String c rest => String (upper_ascii c) (toUpperCase rest)
  end.

(** ** The console *)

(** The methods of Node's [console] that matter here; [c_debug] is the
    dedicated debug method, which the backend does not use. *)
Inductive ConsoleMethod : Type := c_error | c_warn | c_info | c_log | c_debug.

#[global] Instance ConsoleMethod_eq_dec : EqDecision ConsoleMethod.
Proof. solve_decision. Defined.

(** One call [console[method](fmt, ...args)]. *)
Record ConsoleCall : Type := mkConsoleCall {
  cc_method : ConsoleMethod;
  cc_format : string;
  cc_args : list val
}.

(** ** Completions and the state-and-exception monad *)

Inductive Completion (A : Type) : Type :=
  | Normal (a : A)
  | Throw (e : val).
Arguments Normal {A} a.
Arguments Throw {A} e.

Definition SE (S A : Type) : Type := S → Completion A * S.

Definition ret {S A} (a : A) : SE S A := λ s, (Normal a, s).

Definition throw {S A} (e : val) : SE S A := λ s, (Throw e, s).

Definition bind {S A B} (c : SE S A) (k : A → SE S B) : SE S B :=
  λ s, match c s with
       | (Normal a, s') => k a s'
       | (Throw e, s') => (Throw e, s')
       end.

Definition gets {S A} (f : S → A) : SE S A := λ s, (Normal (f s), s).

Definition modify {S} (f : S → S) : SE S unit := λ s, (Normal tt, f s).

Notation "'let*' x ':=' c 'in' k" := (bind c (λ x, k))
  (at level 10, x name, c at level 100, k at level 200).

Section Model.

(** The state of the consumer's backend (a bunyan instance, a socket, a
    test double's call list): opaque to the library. *)
Context {U : Type}.

(** ** The world user code runs in *)

Record Store : Type := mkStore {
  heap : gmap loc (gmap string val);   (* plain objects, by address *)
  env : gmap string string;            (* process.env *)
  console : list ConsoleCall;          (* calls made on console, oldest first *)
  ext : U
}.

(** User-supplied code: runs on the store, may throw. *)
Definition Eff (A : Type) : Type := SE Store A.

(** [LogFunction] (lines 55-57): [meta] is [None] when the caller left it
    [undefined].  Declared to return [void], it can return anything. *)
Definition LogFunction : Type := LogLevel → string → option loc → Eff val.

(** [LogFunctionFactory] (lines 44-46): receives the scope by reference. *)
Definition LogFunctionFactory : Type := loc → Eff LogFunction.

(** Contents of the object at [l]; addresses handed out by [alloc_obj] are
    always mapped, the default only makes the lookup total. *)
Definition obj_at (h : gmap loc (gmap string val)) (l : loc) : gmap string val :=
  default ∅ (h !! l).

(** [{}]-style allocation of a new object with the given properties. *)
Definition alloc_obj (o : gmap string val) : Eff loc :=
  λ st, let l := fresh (dom (heap st)) in
        (Normal l, mkStore (<[l := o]> (heap st)) (env st) (console st) (ext st)).

(** [o[k] = v] through a reference. *)
Definition obj_set (l : loc) (k : string) (v : val) : Eff unit :=
  modify (λ st, mkStore (<[l := <[k := v]> (obj_at (heap st) l)]> (heap st))
                        (env st) (console st) (ext st)).

(** [console[method](fmt, ...args)]. *)
Definition console_call (m : ConsoleMethod) (fmt : string) (args : list val)
  : Eff unit :=
  modify (λ st, mkStore (heap st) (env st)
                        (console st ++ [mkConsoleCall m fmt args]) (ext st)).

(** Object spread [...source] into a literal under construction: every own
    property of [source] is defined on [target], replacing what is there. *)
Definition spread (target source : gmap string val) : gmap string val :=
  map_fold (λ k v acc, <[k := v]> acc) target source.

(** ** [Logger] (lines 65-131) *)

Record LoggerObj : Type := mkLogger {
  _scope : loc;
  _logFactory : LogFunctionFactory;
  log : option LogFunction     (* [None] until the constructor assigns it *)
}.

(** Calls the library makes into user code, for counting them.  A factory
    call records the properties the scope had when it was passed. *)
Inductive Call : Type :=
  | CallFactory (f : LogFunctionFactory) (scope : loc)
                (props : gmap string val)
  | CallLog (g : LogFunction) (level : LogLevel) (message : string)
            (meta : option loc).

Record State : Type := mkState {
  store : Store;
  loggers : gmap loc LoggerObj;   (* Logger instances, by address *)
  calls : list Call               (* oldest first *)
}.

Definition M (A : Type) : Type := SE State A.

(** Run user code inside the library's state. *)
Definition lift {A} (c : Eff A) : M A :=
  λ s, let '(r, st) := c (store s) in (r, mkState st (loggers s) (calls s)).

Definition record (c : Call) : M unit :=
  modify (λ s, mkState (store s) (loggers s) (calls s ++ [c])).

Definition call_factory (f : LogFunctionFactory) (scope : loc) : M LogFunction :=
  let* props := gets (λ s, obj_at (heap (store s)) scope) in
  let* _ := record (CallFactory f scope props) in
  lift (f scope).

Definition call_log (g : LogFunction) (level : LogLevel) (message : string)
    (meta : option loc) : M val :=
  let* _ := record (CallLog g level message meta) in
  lift (g level message meta).

Definition alloc_logger (o : LoggerObj) : M loc :=
  λ s, let this := fresh (dom (loggers s)) in
       (Normal this, mkState (store s) (<[this := o]> (loggers s)) (calls s)).

Definition set_log (this : loc) (g : LogFunction) : M unit :=
  modify (λ s, mkState (store s)
    (alter (λ o, mkLogger (_scope o) (_logFactory o) (Some g)) this (loggers s))
    (calls s)).

(** What calling a method on something that is not a Logger, or calling
    [undefined], raises. *)
Definition TypeError : val := VString "TypeError".

Definition get_logger (this : loc) : M LoggerObj :=
  let* o := gets (λ s, loggers s !! this) in
  match o with
  | Some o => ret o
  | None => throw TypeError
  end.

(** [new Logger(logFactory, scope = {})] (lines 71-79). *)
Definition Logger_new (logFactory : LogFunctionFactory) (scope : option loc)
  : M loc :=
  let* scope := match scope with
                | Some l => ret l
                | None => lift (alloc_obj ∅)
                end in
  let* this := alloc_logger (mkLogger scope logFactory None) in
  let* g := call_factory logFactory scope in
  let* _ := set_log this g in
  ret this.

(** [scope(additionalScope)] (lines 88-95). *)
Definition Logger_scope (this : loc) (additionalScope : loc) : M loc :=
  let* o := get_logger this in
  let* merged := gets (λ s, spread (spread ∅ (obj_at (heap (store s)) (_scope o)))
                                   (obj_at (heap (store s)) additionalScope)) in
  let* l := lift (alloc_obj merged) in
  Logger_new (_logFactory o) (Some l).

(** [getCurrentScope()] (lines 100-102). *)
Definition getCurrentScope (this : loc) : M loc :=
  let* o := get_logger this in
  ret (_scope o).

Definition Logger_log (this : loc) (level : LogLevel) (message : string)
    (meta : option loc) : M val :=
  let* o := get_logger this in
  match log o with
  | Some g => call_log g level message meta
  | None => throw TypeError
  end.

(** [error], [warn], [info], [debug] (lines 107-130). *)
Definition error (this : loc) (message : string) (meta : option loc) : M val :=
  Logger_log this ERROR message meta.

Definition warn (this : loc) (message : string) (meta : option loc) : M val :=
  Logger_log this WARNING message meta.

Definition info (this : loc) (message : string) (meta : option loc) : M val :=
  Logger_log this INFO message meta.

Definition debug (this : loc) (message : string) (meta : option loc) : M val :=
  Logger_log this DEBUG message meta.

(** ** The console backend (lines 139-213) *)

Record ConsoleLogConfig : Type := mkConsoleLogConfig {
  format : string;
  formatParameters : LogLevel → string → loc → Eff (list val)
}.

(** The default value of [makeConsoleLogFactory]'s parameter
    (lines 174-179). *)
Definition defaultConsoleLogConfig : ConsoleLogConfig :=
  mkConsoleLogConfig "%s: %s (%O)"
    (λ level message scope,
       ret [VString (toUpperCase (LogLevel_value level));
            VString message; VObject scope]).

(** JavaScript truthiness of [process.env.NAME]: a string, or [undefined]
    when the variable is not in the environment. *)
Definition env_truthy (v : option string) : bool :=
  match v with
  | None => false
  | Some s => negb (String.eqb s "")
  end.

(** The [switch] of lines 187-199. *)
Definition console_method (level : LogLevel) : ConsoleMethod :=
  match level with
  | ERROR => c_error
  | WARNING => c_warn
  | INFO => c_info
  | _ => c_log
  end.

(** The arrow function of lines 182-202, closed over the configuration
    and the scope.  It declares two parameters: a third argument is
    accepted and dropped.  [process.env] is read at every call. *)
Definition consoleLogFunction (config : ConsoleLogConfig) (scope : loc)
  : LogFunction :=
  λ level message _meta,
    let* flag := gets (λ st, env st !! "GRAPHILE_LOGGER_DEBUG") in
    if bool_decide (level = DEBUG) && negb (env_truthy flag) then ret VUndefined
    else
      let method := console_method level in
      let* params := formatParameters config level message scope in
      let* _ := console_call method (format config) params in
      ret VUndefined.

(** [makeConsoleLogFactory(config)] (lines 173-204); [None] is the call
    without an argument. *)
Definition makeConsoleLogFactory (config : option ConsoleLogConfig)
  : LogFunctionFactory :=
  let config := default defaultConsoleLogConfig config in
  λ scope, ret (consoleLogFunction config scope).

(** [consoleLogFactory] (line 213). *)
Definition consoleLogFactory : LogFunctionFactory := makeConsoleLogFactory None.

(** [defaultLogger = new Logger(consoleLogFactory, {})] (line 218). *)
Definition defaultLogger : M loc :=
  let* l := lift (alloc_obj ∅) in
  Logger_new consoleLogFactory (Some l).

(** ** Vocabulary of the properties *)

Implicit Types (s : State) (st : Store) (f : LogFunctionFactory).

(** The heap of plain objects only grows: what was allocated keeps its
    properties. *)
Definition heap_kept st st' : Prop := heap st ⊆ heap st'.

(** A factory that leaves the objects it can reach as they are.  Nothing
    in the types enforces this; it is what the library expects of its
    consumer. *)
Definition factory_frame f : Prop :=
  ∀ l st, heap_kept st (f l st).2.

(** A factory that returns a log function instead of throwing. *)
Definition factory_returns f : Prop :=
  ∀ l st, ∃ g, (f l st).1 = Normal g.

(** The store after one more call on [console]. *)
Definition with_console_call st (c : ConsoleCall) : Store :=
  mkStore (heap st) (env st) (console st ++ [c]) (ext st).

(** The properties of a Logger's scope, read through [getCurrentScope()]. *)
Definition current_scope_props this s : option (gmap string val) :=
  match getCurrentScope this s with
  | (Normal r, s') => heap (store s') !! r
  | (Throw _, _) => None
  end.

(** What C2 asks of [getCurrentScope()]: assigning to a property of the
    object it returned does not change what the Logger's scope reads as. *)
Definition getCurrentScope_is_defensive this s : Prop :=
  ∀ r s1 (k : string) (v : val),
    getCurrentScope this s = (Normal r, s1) →
    current_scope_props this (lift (obj_set r k v) s1).2 =
      current_scope_props this s.

(** [process.env[name] = value], done by the program or its host between
    two calls of the library. *)
Definition env_set (name value : string) : Eff unit :=
  modify (λ st, mkStore (heap st) (<[name := value]> (env st)) (console st)
                        (ext st)).

(** [delete process.env[name]]. *)
Definition env_unset (name : string) : Eff unit :=
  modify (λ st, mkStore (heap st) (delete name (env st)) (console st) (ext st)).

(** [logger.scope(X1).scope(X2)...scope(Xn)], the way a caller narrows a
    Logger step by step. *)
Fixpoint scope_chain (this : loc) (Xs : list loc) : M loc :=
  match Xs with
  | [] => ret this
  | X :: Xs => let* child := Logger_scope this X in scope_chain child Xs
  end.

(** A record of a call of the factory [f]. *)
Definition is_call_of f (c : Call) : Prop :=
  match c with
  | CallFactory f' _ _ => f' = f
  | CallLog _ _ _ _ => False
  end.

(** The level method that logs at [level]. *)
Definition level_method (level : LogLevel)
  : loc → string → option loc → M val :=
  match level with
  | ERROR => error
  | WARNING => warn
  | INFO => info
  | DEBUG => debug
  end.

(** What C1 says of [logger.scope(A).scope(B).getCurrentScope()], at the
    key [k]: the call returns an object that has, under [k], [B]'s value,
    else [A]'s, else the one of the Logger's scope. *)
Definition scope_chain_merged_key this (A B : loc) s (k : string) : Prop :=
  let run := (let* c1 := Logger_scope this A in
              let* c2 := Logger_scope c1 B in
              getCurrentScope c2) s in
  match loggers s !! this, run.1 with
  | Some o, Normal r =>
      obj_at (heap (store run.2)) r !! k =
        match obj_at (heap (store s)) B !! k with
        | Some v => Some v
        | None => match obj_at (heap (store s)) A !! k with
                  | Some v => Some v
                  | None => obj_at (heap (store s)) (_scope o) !! k
                  end
        end
  | Some o, Throw _ => False
  | None, _ => True
  end.

(** What C5 says of [logger.scope(X)]: the parent's scope reads the same
    after the call as before. *)
Definition scope_keeps_parent_scope this (X : loc) s : Prop :=
  current_scope_props this (Logger_scope this X s).2 =
    current_scope_props this s.

(** What C6 says of a variable that is present: a DEBUG call on the
    default backend then reaches the console. *)
Definition debug_forwarded_if_present st : Prop :=
  is_Some (env st !! "GRAPHILE_LOGGER_DEBUG") →
  ∀ scope (message : string) meta,
    console (consoleLogFunction defaultConsoleLogConfig scope DEBUG
               message meta st).2 ≠ console st.

End Model.

Arguments Store : clear implicits.
Arguments State : clear implicits.
Arguments LogFunction : clear implicits.
Arguments LogFunctionFactory : clear implicits.
Arguments LoggerObj : clear implicits.
Arguments ConsoleLogConfig : clear implicits.

(** ** Concrete inputs *)

(** A process with four scope objects and two nested objects on its heap,
    no environment variable set and nothing on the console yet. *)
Definition demo_root : gmap string val :=
  {[ "label" := VString "core"; "workerId" := VString "w0";
     "details" := VObject 5 ]}.

Definition demo_A : gmap string val := {[ "workerId" := VString "w1" ]}.

Definition demo_B : gmap string val :=
  {[ "taskIdentifier" := VString "t"; "jobId" := VNumber 84;
     "details" := VObject 6 ]}.

Definition demo_undef : gmap string val := {[ "workerId" := VUndefined ]}.

Definition demo_heap : gmap loc (gmap string val) :=
  {[ 1%positive := demo_root;
     2%positive := demo_A;
     3%positive := demo_B;
     4%positive := demo_undef;
     5%positive := {[ "host" := VString "a"; "port" := VNumber 1 ]};
     6%positive := {[ "host" := VString "b" ]} ]}.

Definition demo_store : Store unit := mkStore demo_heap ∅ [] tt.

(** The state after [new Logger(consoleLogFactory, root)], [root] being
    the object at address 1. *)
Definition demo_state : State unit :=
  (Logger_new consoleLogFactory (Some 1%positive) (mkState demo_store ∅ [])).2.

(** The Logger that call created, as it sits in [demo_state]. *)
Definition demo_log : LogFunction unit :=
  consoleLogFunction defaultConsoleLogConfig 1%positive.

Definition demo_logger : LoggerObj unit :=
  mkLogger 1%positive consoleLogFactory (Some demo_log).

(** GRAPHILE_LOGGER_DEBUG is in the environment, with the empty string as
    its value. *)
Definition store_flag_empty : Store unit :=
  mkStore demo_heap {[ "GRAPHILE_LOGGER_DEBUG" := "" ]} [] tt.

(** GRAPHILE_LOGGER_DEBUG=1. *)
Definition store_flag_one : Store unit :=
  mkStore demo_heap {[ "GRAPHILE_LOGGER_DEBUG" := "1" ]} [] tt.

(** [demo_state] after the caller has built [{}] (at address 7) and
    [{...A, ...B}] (at address 8). *)
Definition demo_state_more : State unit :=
  (lift (alloc_obj (spread (spread ∅ demo_A) demo_B))
        (lift (alloc_obj ∅) demo_state).2).2.

(** A configuration whose [formatParameters] throws. *)
Definition throwing_config : ConsoleLogConfig unit :=
  mkConsoleLogConfig "%s" (λ _ _ _, throw (VString "boom")).

(** The state after
    [new Logger(makeConsoleLogFactory(throwing_config), root)]. *)
Definition throwing_state : State unit :=
  (Logger_new (makeConsoleLogFactory (Some throwing_config)) (Some 1%positive)
     (mkState demo_store ∅ [])).2.

Definition throwing_logger : LoggerObj unit :=
  mkLogger 1%positive (makeConsoleLogFactory (Some throwing_config))
    (Some (consoleLogFunction throwing_config 1%positive)).

(** A factory that writes to the scope it is handed:
    [scope => { scope.workerId = "hijacked"; return () => {}; }]. *)
Definition hijackingFactory : LogFunctionFactory unit :=
  λ scope,
    let* _ := obj_set scope "workerId" (VString "hijacked") in
    ret (λ _ _ _, ret VUndefined).

(** The state after [new Logger(hijackingFactory, root)]. *)
Definition hijacking_state : State unit :=
  (Logger_new hijackingFactory (Some 1%positive) (mkState demo_store ∅ [])).2.

(** A factory that keeps, in an object it has captured, the last scope
    it was called with:
    [scope => { captured.last = scope; return () => {}; }]. *)
Definition trackingFactory (captured : loc) : LogFunctionFactory unit :=
  λ scope,
    let* _ := obj_set captured "last" (VObject scope) in
    ret (λ _ _ _, ret VUndefined).

(** The state after [new Logger(trackingFactory(root), root)]. *)
Definition tracking_state : State unit :=
  (Logger_new (trackingFactory 1%positive) (Some 1%positive)
     (mkState demo_store ∅ [])).2.

(** [demo_state] after [defaultLogger] has been built: it is the Logger
    at address 2, over the new empty object at address 7. *)
Definition default_state : State unit := (defaultLogger demo_state).2.

Definition default_logger : LoggerObj unit :=
  mkLogger 7%positive consoleLogFactory
    (Some (consoleLogFunction defaultConsoleLogConfig 7%positive)).

(** * Properties *)

(** ** Object spread is a key-wise overlay *)

Lemma spread_union (target source : gmap string val) :
  spread target source = source ∪ target.
Proof.
  unfold spread.
  apply (map_fold_weak_ind (λ r m, r = m ∪ target)).
  - by rewrite (left_id_L ∅ (∪)).
  - intros k v m r _ ->. by rewrite insert_union_l.
Qed.

Lemma spread_lookup (target source : gmap string val) (k : string) :
  spread target source !! k =
    match source !! k with
    | Some v => Some v
    | None => target !! k
    end.
Proof.
  rewrite spread_union, lookup_union.
  destruct (source !! k), (target !! k); reflexivity.
Qed.

Lemma spread_empty (source : gmap string val) : spread ∅ source = source.
Proof. rewrite spread_union. apply (right_id_L ∅ (∪)). Qed.

(** ** Running the constructor *)

Section Runs.

Context {U : Type}.
Implicit Types (s : State U) (st : Store U) (f : LogFunctionFactory U)
  (g : LogFunction U) (o : LoggerObj U).

Lemma Logger_new_run f l s :
  Logger_new f (Some l) s =
    let this := fresh (dom (loggers s)) in
    let cs := calls s ++ [CallFactory f l (obj_at (heap (store s)) l)] in
    match f l (store s) with
    | (Normal g, st') =>
        (Normal this,
         mkState st' (<[this := mkLogger l f (Some g)]> (loggers s)) cs)
    | (Throw e, st') =>
        (Throw e, mkState st' (<[this := mkLogger l f None]> (loggers s)) cs)
    end.
Proof.
  unfold Logger_new, call_factory, alloc_logger, set_log, record, lift,
    bind, ret, gets, modify; simpl.
  destruct (f l (store s)) as [[g|e] st']; simpl; [|reflexivity].
  by rewrite alter_insert_eq.
Qed.

Lemma alloc_obj_run (m : gmap string val) st :
  alloc_obj m st =
    (Normal (fresh (dom (heap st))),
     mkStore (<[fresh (dom (heap st)) := m]> (heap st))
             (env st) (console st) (ext st)).
Proof. reflexivity. Qed.

Lemma obj_at_insert (h : gmap loc (gmap string val)) l (m : gmap string val) :
  obj_at (<[l := m]> h) l = m.
Proof. unfold obj_at. by rewrite lookup_insert_eq. Qed.

Lemma fresh_heap_None st : heap st !! fresh (dom (heap st)) = None.
Proof. apply not_elem_of_dom, is_fresh. Qed.

Lemma fresh_loggers_None s : loggers s !! fresh (dom (loggers s)) = None.
Proof. apply not_elem_of_dom, is_fresh. Qed.

Lemma heap_kept_lookup st st' l (m : gmap string val) :
  heap_kept st st' → heap st !! l = Some m → heap st' !! l = Some m.
Proof. intros Hk Hl. by eapply lookup_weaken. Qed.

Lemma get_logger_run this o s :
  loggers s !! this = Some o → get_logger this s = (Normal o, s).
Proof.
  intros H. unfold get_logger, bind, gets, ret. by rewrite H.
Qed.

Lemma Logger_scope_run this o X s :
  loggers s !! this = Some o →
  Logger_scope this X s =
    let merged := spread (spread ∅ (obj_at (heap (store s)) (_scope o)))
                         (obj_at (heap (store s)) X) in
    let l := fresh (dom (heap (store s))) in
    let st1 := mkStore (<[l := merged]> (heap (store s))) (env (store s))
                       (console (store s)) (ext (store s)) in
    Logger_new (_logFactory o) (Some l) (mkState st1 (loggers s) (calls s)).
Proof.
  intros H. unfold Logger_scope.
  unfold bind at 1. rewrite (get_logger_run _ _ _ H).
  reflexivity.
Qed.

End Runs.

(** ** The Logger class *)

Section LoggerProperties.

Context {U : Type}.
Implicit Types (s : State U) (st : Store U) (f : LogFunctionFactory U)
  (g : LogFunction U) (o : LoggerObj U).

Lemma Logger_new_default f s :
  Logger_new f None s =
    Logger_new f (Some (fresh (dom (heap (store s)))))
      (mkState (alloc_obj ∅ (store s)).2 (loggers s) (calls s)).
Proof. reflexivity. Qed.

(** C3.  [new Logger(factory, scope)] calls [factory] exactly once (one
    call record is appended), with the very scope it was given, whose
    properties at that moment are the ones the caller passed; the state
    the constructor leaves is the one the factory left; when the factory
    returns [g], the new Logger's [log] is [g], its [_scope] the scope and
    its [_logFactory] the factory; when the factory throws, so does the
    constructor.  With the scope omitted the factory receives a new
    empty object. *)
Theorem Logger_new_invokes_factory_once f (scope : option loc) s :
  let l := match scope with
           | Some l => l
           | None => fresh (dom (heap (store s)))
           end in
  let st1 := match scope with
             | Some _ => store s
             | None => (alloc_obj ∅ (store s)).2
             end in
  let props := match scope with
               | Some l => obj_at (heap (store s)) l
               | None => ∅
               end in
  let '(res, s') := Logger_new f scope s in
  calls s' = calls s ++ [CallFactory f l props] ∧
  store s' = (f l st1).2 ∧
  match scope with
  | Some _ => True
  | None => heap (store s) !! l = None ∧ heap st1 !! l = Some ∅
  end ∧
  match (f l st1).1 with
  | Normal g =>
      ∃ this, res = Normal this ∧ loggers s !! this = None ∧
              loggers s' !! this = Some (mkLogger l f (Some g))
  | Throw e => res = Throw e
  end.
Proof.
  destruct scope as [l0|]; simpl.
  - rewrite Logger_new_run; simpl.
    destruct (f l0 (store s)) as [[g|e] st'] eqn:Hf; simpl;
      repeat split; try reflexivity.
    exists (fresh (dom (loggers s))).
    split; [reflexivity|]. split; [apply fresh_loggers_None|].
    apply lookup_insert_eq.
  - rewrite Logger_new_default, Logger_new_run; simpl.
    set (l := fresh (dom (heap (store s)))).
    set (st1 := mkStore (<[l:=∅]> (heap (store s))) _ _ _).
    rewrite obj_at_insert.
    destruct (f l st1) as [[g|e] st'] eqn:Hf; simpl;
      repeat split; try reflexivity;
      try apply fresh_heap_None; try apply lookup_insert_eq.
    exists (fresh (dom (loggers s))).
    split; [reflexivity|]. split; [apply fresh_loggers_None|].
    apply lookup_insert_eq.
Qed.

Lemma Logger_log_run this o g level (message : string) (meta : option loc) s :
  loggers s !! this = Some o → log o = Some g →
  Logger_log this level message meta s =
    let '(r, st') := g level message meta (store s) in
    (r, mkState st' (loggers s) (calls s ++ [CallLog g level message meta])).
Proof.
  intros Ho Hg. unfold Logger_log.
  unfold bind at 1. rewrite (get_logger_run _ _ _ Ho), Hg.
  reflexivity.
Qed.

(** C4.  On a constructed Logger whose bound log function is [g], each of
    [error], [warn], [info] and [debug] makes exactly one call of [g] (one
    call record is appended), with the level [ERROR], [WARNING], [INFO],
    [DEBUG] respectively, the message and the metadata as given ([None]
    when omitted); the result and the state are the ones [g] produced.
    The levels stand for the strings "error", "warning", "info" and
    "debug": [warn] passes "warning", not "warn". *)
Theorem level_methods_pass_through this o g (message : string)
    (meta : option loc) s :
  loggers s !! this = Some o → log o = Some g →
  let through level :=
    let '(r, st') := g level message meta (store s) in
    (r, mkState st' (loggers s) (calls s ++ [CallLog g level message meta])) in
  error this message meta s = through ERROR ∧
  warn this message meta s = through WARNING ∧
  info this message meta s = through INFO ∧
  debug this message meta s = through DEBUG ∧
  LogLevel_value ERROR = "error" ∧
  LogLevel_value WARNING = "warning" ∧
  LogLevel_value WARNING ≠ "warn" ∧
  LogLevel_value INFO = "info" ∧
  LogLevel_value DEBUG = "debug".
Proof.
  intros Ho Hg through.
  unfold error, warn, info, debug, through.
  rewrite !(Logger_log_run _ _ _ _ _ _ _ Ho Hg).
  repeat split; discriminate.
Qed.

(** C9.  [logger.scope(X)] builds a new object [l] holding the merged
    scope (each key of [X] with [X]'s value, every other key with the
    value the parent's scope has), then calls the parent's own factory
    once, on [l]; the child holds that same factory, its [_scope] is [l]
    and its [log] is what this call returned, whatever the parent's [log]
    is.  When the factory throws, [scope] throws. *)
Theorem scope_reinvokes_factory this o (X : loc) s :
  loggers s !! this = Some o →
  let f := _logFactory o in
  let parent := obj_at (heap (store s)) (_scope o) in
  let extra := obj_at (heap (store s)) X in
  let l := fresh (dom (heap (store s))) in
  ∃ merged st1,
    (∀ k, merged !! k = match extra !! k with
                        | Some v => Some v
                        | None => parent !! k
                        end) ∧
    heap (store s) !! l = None ∧
    st1 = mkStore (<[l := merged]> (heap (store s))) (env (store s))
                  (console (store s)) (ext (store s)) ∧
    let '(res, s') := Logger_scope this X s in
    calls s' = calls s ++ [CallFactory f l merged] ∧
    store s' = (f l st1).2 ∧
    match (f l st1).1 with
    | Normal g =>
        ∃ child c, res = Normal child ∧ loggers s' !! child = Some c ∧
                   _logFactory c = f ∧ log c = Some g ∧ _scope c = l
    | Throw e => res = Throw e
    end.
Proof.
  intros Ho f parent extra l.
  exists (spread (spread ∅ parent) extra). eexists.
  split; [intros k; by rewrite spread_empty, spread_lookup|].
  split; [apply fresh_heap_None|]. split; [reflexivity|].
  rewrite (Logger_scope_run _ _ _ _ Ho), Logger_new_run; simpl.
  rewrite obj_at_insert. fold parent extra l f.
  set (st1 := mkStore (<[l := spread (spread ∅ parent) extra]> (heap (store s)))
                      _ _ _).
  destruct (f l st1) as [[g|e] st'] eqn:Hf; simpl;
    repeat split; try reflexivity.
  eexists _, _. split; [reflexivity|].
  split; [apply lookup_insert_eq|]. by repeat split.
Qed.

Lemma getCurrentScope_run this o s :
  loggers s !! this = Some o → getCurrentScope this s = (Normal (_scope o), s).
Proof.
  intros Ho. unfold getCurrentScope, bind. by rewrite (get_logger_run _ _ _ Ho).
Qed.

(** What [scope] does when the factory behaves: a new Logger over a new
    object holding the overlay, everything else as it was. *)
Lemma Logger_scope_spec this o (R x : gmap string val) (X : loc) s :
  loggers s !! this = Some o →
  heap (store s) !! _scope o = Some R →
  heap (store s) !! X = Some x →
  factory_frame (_logFactory o) → factory_returns (_logFactory o) →
  ∃ child g s',
    Logger_scope this X s = (Normal child, s') ∧
    loggers s !! child = None ∧
    loggers s' =
      <[child := mkLogger (fresh (dom (heap (store s)))) (_logFactory o) (Some g)]>
        (loggers s) ∧
    heap (store s') !! fresh (dom (heap (store s))) = Some (spread (spread ∅ R) x) ∧
    heap_kept (store s) (store s').
Proof.
  intros Ho HR HX Hframe Hret.
  rewrite (Logger_scope_run _ _ _ _ Ho), Logger_new_run; simpl.
  unfold obj_at at 1 2. rewrite HR, HX; simpl.
  set (l := fresh (dom (heap (store s)))).
  set (st1 := mkStore (<[l := spread (spread ∅ R) x]> (heap (store s))) _ _ _).
  destruct (Hret l st1) as [g Hg]. specialize (Hframe l st1).
  destruct (_logFactory o l st1) as [c st']; simpl in *; subst c.
  exists (fresh (dom (loggers s))), g. eexists.
  split; [reflexivity|]. simpl.
  split; [apply fresh_loggers_None|]. split; [reflexivity|].
  assert (Hk1 : heap_kept (store s) st1).
  { apply insert_subseteq, fresh_heap_None. }
  split.
  - eapply heap_kept_lookup; [exact Hframe|]. apply lookup_insert_eq.
  - unfold heap_kept in *. by etrans.
Qed.

(** C1, as the code has it.  From a Logger whose scope has the properties
    [R], scoping with
    an object of properties [a] and then with one of properties [b]
    yields a Logger whose [getCurrentScope()] is an object [m] that maps
    every key to [b]'s value if [b] has the key, else to [a]'s if [a] has
    it, else to what [R] has.  Values are copied as they are: an object
    value of [b] is the same reference in [m], and every object that
    existed before, including those the three scopes point to, keeps its
    properties (nothing is merged field by field).  This is for a factory
    that returns and leaves existing objects as they are. *)
Theorem scope_chain_is_shallow_merge this o (R a b : gmap string val)
    (A B : loc) s :
  loggers s !! this = Some o →
  heap (store s) !! _scope o = Some R →
  heap (store s) !! A = Some a →
  heap (store s) !! B = Some b →
  factory_frame (_logFactory o) → factory_returns (_logFactory o) →
  ∃ r s' m,
    (let* c1 := Logger_scope this A in
     let* c2 := Logger_scope c1 B in
     getCurrentScope c2) s = (Normal r, s') ∧
    heap (store s') !! r = Some m ∧
    (∀ k, m !! k = match b !! k with
                   | Some v => Some v
                   | None => match a !! k with
                             | Some v => Some v
                             | None => R !! k
                             end
                   end) ∧
    (∀ k l, b !! k = Some (VObject l) → m !! k = Some (VObject l)) ∧
    heap_kept (store s) (store s').
Proof.
  intros Ho HR HA HB Hframe Hret.
  destruct (Logger_scope_spec _ _ _ _ _ _ Ho HR HA Hframe Hret)
    as (c1 & g1 & s1 & Hrun1 & Hnew1 & Hlg1 & Hm1 & Hk1).
  set (l1 := fresh (dom (heap (store s)))) in *.
  set (o1 := mkLogger l1 (_logFactory o) (Some g1)) in *.
  assert (Ho1 : loggers s1 !! c1 = Some o1).
  { rewrite Hlg1. apply lookup_insert_eq. }
  assert (HB1 : heap (store s1) !! B = Some b).
  { by eapply heap_kept_lookup. }
  destruct (Logger_scope_spec c1 o1 _ _ B s1 Ho1 Hm1 HB1 Hframe Hret)
    as (c2 & g2 & s2 & Hrun2 & Hnew2 & Hlg2 & Hm2 & Hk2).
  set (l2 := fresh (dom (heap (store s1)))) in *.
  assert (Ho2 : loggers s2 !! c2 = Some (mkLogger l2 (_logFactory o) (Some g2))).
  { rewrite Hlg2. apply lookup_insert_eq. }
  exists l2, s2, (spread (spread ∅ (spread (spread ∅ R) a)) b).
  split.
  { unfold bind at 1. rewrite Hrun1. unfold bind at 1. rewrite Hrun2.
    apply (getCurrentScope_run _ _ _ Ho2). }
  split; [exact Hm2|].
  assert (Hlk : ∀ k, spread (spread ∅ (spread (spread ∅ R) a)) b !! k =
    match b !! k with
    | Some v => Some v
    | None => match a !! k with Some v => Some v | None => R !! k end
    end).
  { intros k. rewrite !spread_empty, !spread_lookup. reflexivity. }
  split; [exact Hlk|]. split.
  - intros k l Hb. by rewrite Hlk, Hb.
  - unfold heap_kept in *. by etrans.
Qed.

(** C5, as the code has it.  [logger.scope(X)] leaves the Logger cell of
    [logger] as it was: the same [_scope] reference, [_logFactory] and
    [log], so [getCurrentScope()] returns the same object; every other
    existing Logger is unchanged too.  [scope] itself writes to no
    existing object: it adds one object, at the new address [l], and the
    rest of what happens to the store is the factory's call on [l].  So
    the parent's scope object keeps its properties whenever that call of
    the factory keeps the objects that exist.  When the factory returns,
    [scope] returns a new Logger, at an address no Logger had, whose
    scope is the new object [l]; when the factory throws, [scope]
    throws. *)
Theorem scope_leaves_parent_unchanged this o (R : gmap string val) (X : loc) s :
  loggers s !! this = Some o →
  heap (store s) !! _scope o = Some R →
  let f := _logFactory o in
  let l := fresh (dom (heap (store s))) in
  ∃ st1,
    heap (store s) !! l = None ∧
    (∀ l', l' ≠ l → heap st1 !! l' = heap (store s) !! l') ∧
    let '(res, s') := Logger_scope this X s in
    store s' = (f l st1).2 ∧
    loggers s' !! this = Some o ∧
    getCurrentScope this s' = (Normal (_scope o), s') ∧
    (∀ t ot, loggers s !! t = Some ot → loggers s' !! t = Some ot) ∧
    (heap_kept st1 (f l st1).2 → heap (store s') !! _scope o = Some R) ∧
    match (f l st1).1 with
    | Normal g =>
        ∃ child c, res = Normal child ∧ child ≠ this ∧
                   loggers s !! child = None ∧
                   loggers s' !! child = Some c ∧
                   _scope c = l ∧ _scope c ≠ _scope o
    | Throw e => res = Throw e
    end.
Proof.
  intros Ho HR f l.
  assert (Hl : heap (store s) !! l = None) by apply fresh_heap_None.
  set (merged := spread (spread ∅ (obj_at (heap (store s)) (_scope o)))
                        (obj_at (heap (store s)) X)).
  exists (mkStore (<[l := merged]> (heap (store s))) (env (store s))
                  (console (store s)) (ext (store s))).
  split; [exact Hl|].
  split; [intros l' Hne; simpl; by rewrite lookup_insert_ne|].
  rewrite (Logger_scope_run _ _ _ _ Ho), Logger_new_run; simpl.
  fold l merged f.
  set (st1 := mkStore (<[l := merged]> (heap (store s))) _ _ _).
  set (child := fresh (dom (loggers s))).
  assert (Hc : loggers s !! child = None) by apply fresh_loggers_None.
  assert (Hne : child ≠ this) by congruence.
  assert (HR1 : heap st1 !! _scope o = Some R).
  { unfold st1; simpl. rewrite lookup_insert_ne; [done|congruence]. }
  destruct (f l st1) as [[g|e] st'] eqn:Hf; simpl.
  - assert (Ho' : <[child := mkLogger l f (Some g)]> (loggers s) !! this
                  = Some o) by by rewrite lookup_insert_ne.
    split; [reflexivity|]. split; [exact Ho'|].
    split; [by apply getCurrentScope_run|].
    split.
    { intros t ot Ht. rewrite lookup_insert_ne; [done|congruence]. }
    split; [intros Hk; by eapply heap_kept_lookup|].
    eexists _, _. split; [reflexivity|]. split; [done|]. split; [done|].
    split; [apply lookup_insert_eq|]. simpl. split; [done|congruence].
  - assert (Ho' : <[child := mkLogger l f None]> (loggers s) !! this
                  = Some o) by by rewrite lookup_insert_ne.
    split; [reflexivity|]. split; [exact Ho'|].
    split; [by apply getCurrentScope_run|].
    split.
    { intros t ot Ht. rewrite lookup_insert_ne; [done|congruence]. }
    split; [intros Hk; by eapply heap_kept_lookup|reflexivity].
Qed.

(** C10.  When the additional scope has key [k] with the value
    [undefined], the merged scope the child is built on maps [k] to
    [undefined], whatever the parent's scope has under [k]: the factory
    is called on an object with these properties, and that object is the
    child's [_scope]. *)
Theorem scope_undefined_overrides this o (X : loc) (x : gmap string val)
    (k : string) s :
  loggers s !! this = Some o →
  heap (store s) !! X = Some x →
  x !! k = Some VUndefined →
  let '(res, s') := Logger_scope this X s in
  ∃ l merged st1,
    merged !! k = Some VUndefined ∧
    heap st1 !! l = Some merged ∧
    calls s' = calls s ++ [CallFactory (_logFactory o) l merged] ∧
    store s' = (_logFactory o l st1).2 ∧
    match res with
    | Normal child => ∃ c, loggers s' !! child = Some c ∧ _scope c = l
    | Throw _ => True
    end.
Proof.
  intros Ho HX Hk.
  rewrite (Logger_scope_run _ _ _ _ Ho), Logger_new_run; simpl.
  rewrite obj_at_insert.
  set (merged := spread _ _).
  set (l := fresh (dom (heap (store s)))).
  set (st1 := mkStore (<[l := merged]> (heap (store s))) _ _ _).
  assert (Hm : merged !! k = Some VUndefined).
  { unfold merged, obj_at at 2. rewrite HX; simpl.
    by rewrite spread_lookup, Hk. }
  assert (Hl : heap st1 !! l = Some merged) by apply lookup_insert_eq.
  destruct (_logFactory o l st1) as [[g|e] st'] eqn:Hf; simpl;
    exists l, merged, st1; rewrite Hf; simpl;
    repeat split; try done.
  eexists. split; [apply lookup_insert_eq|reflexivity].
Qed.

(** C2, as the code has it.  [getCurrentScope()] returns the reference
    held in [_scope] and changes nothing; it is the Logger's own object,
    so after [r[k] = v] on the returned [r] the Logger still returns [r]
    and its scope has [k] set to [v]. *)
Theorem getCurrentScope_returns_alias this o s :
  loggers s !! this = Some o →
  getCurrentScope this s = (Normal (_scope o), s) ∧
  ∀ (k : string) (v : val),
    let s2 := (lift (obj_set (_scope o) k v) s).2 in
    getCurrentScope this s2 = (Normal (_scope o), s2) ∧
    obj_at (heap (store s2)) (_scope o) =
      <[k := v]> (obj_at (heap (store s)) (_scope o)).
Proof.
  intros Ho. split; [by apply getCurrentScope_run|].
  intros k v s2. split.
  - by apply getCurrentScope_run.
  - unfold s2; simpl. apply obj_at_insert.
Qed.

End LoggerProperties.

(** ** The console backend *)

Section ConsoleProperties.

Context {U : Type}.
Implicit Types (s : State U) (st : Store U) (config : ConsoleLogConfig U).

Lemma makeConsoleLogFactory_run (config : option (ConsoleLogConfig U)) scope st :
  makeConsoleLogFactory config scope st =
    (Normal (consoleLogFunction (default defaultConsoleLogConfig config) scope),
     st).
Proof. reflexivity. Qed.

Lemma makeConsoleLogFactory_frame (config : option (ConsoleLogConfig U)) :
  factory_frame (makeConsoleLogFactory config).
Proof.
  intros l st. rewrite makeConsoleLogFactory_run.
  unfold heap_kept; simpl. reflexivity.
Qed.

Lemma makeConsoleLogFactory_returns (config : option (ConsoleLogConfig U)) :
  factory_returns (makeConsoleLogFactory config).
Proof. intros l st. rewrite makeConsoleLogFactory_run. by eexists. Qed.

Lemma env_truthy_false (flag : option string) :
  env_truthy flag = false ↔ flag = None ∨ flag = Some "".
Proof.
  destruct flag as [v|]; simpl.
  - rewrite negb_false_iff, String.eqb_eq. split.
    + intros ->. by right.
    + intros [?| [= ->]]; done.
  - split; [by left|done].
Qed.

Lemma env_truthy_true (flag : option string) :
  env_truthy flag = true ↔ ∃ v, flag = Some v ∧ v ≠ "".
Proof.
  destruct flag as [v|]; simpl.
  - rewrite negb_true_iff, String.eqb_neq. split.
    + intros Hv. by exists v.
    + by intros (? & [= <-] & Hv).
  - split; [done|]. by intros (? & ? & _).
Qed.

Lemma consoleLogFunction_drop config scope (message : string) meta st :
  env_truthy (env st !! "GRAPHILE_LOGGER_DEBUG") = false →
  consoleLogFunction config scope DEBUG message meta st = (Normal VUndefined, st).
Proof.
  intros Hflag. unfold consoleLogFunction, bind, gets, ret; simpl.
  by rewrite Hflag.
Qed.

Lemma consoleLogFunction_forward config scope level (message : string) meta st
    params st' :
  level ≠ DEBUG ∨ env_truthy (env st !! "GRAPHILE_LOGGER_DEBUG") = true →
  formatParameters config level message scope st = (Normal params, st') →
  consoleLogFunction config scope level message meta st =
    (Normal VUndefined,
     with_console_call st'
       (mkConsoleCall (console_method level) (format config) params)).
Proof.
  intros Hfw Hp. unfold consoleLogFunction.
  unfold bind at 1, gets.
  assert (Hgate : bool_decide (level = DEBUG) &&
                  negb (env_truthy (env st !! "GRAPHILE_LOGGER_DEBUG")) = false).
  { destruct Hfw as [Hne | ->].
    - by rewrite bool_decide_eq_false_2.
    - apply andb_false_r. }
  rewrite Hgate. unfold bind at 1. rewrite Hp. reflexivity.
Qed.

(** C6, as the code has it.  The log function of the console backend, for
    any configuration: a DEBUG call returns at once, leaving the store as
    it is (no console call, [formatParameters] not called), when
    GRAPHILE_LOGGER_DEBUG is absent from the environment or is the empty
    string; a DEBUG call with the variable set to a non-empty string, and
    every ERROR, WARNING or INFO call whatever the variable, makes one
    console call with the configured format and the parameters
    [formatParameters] returned. *)
Theorem console_debug_gate config scope level (message : string) meta st :
  let flag := env st !! "GRAPHILE_LOGGER_DEBUG" in
  let run := consoleLogFunction config scope level message meta st in
  (level = DEBUG → flag = None ∨ flag = Some "" →
   run = (Normal VUndefined, st)) ∧
  (level ≠ DEBUG ∨ (∃ v, flag = Some v ∧ v ≠ "") →
   ∀ params st',
     formatParameters config level message scope st = (Normal params, st') →
     ∃ m, run = (Normal VUndefined,
                 with_console_call st' (mkConsoleCall m (format config) params))).
Proof.
  intros flag run. split.
  - intros -> Hflag. apply consoleLogFunction_drop. by apply env_truthy_false.
  - intros Hfw params st' Hp. exists (console_method level).
    apply consoleLogFunction_forward; [|done].
    destruct Hfw as [?|Hv]; [by left|right]. by apply env_truthy_true.
Qed.

(** C7.  A call that is forwarded (any ERROR, WARNING or INFO call, and a
    DEBUG call when the flag is a non-empty string) appends one console
    call whose method depends on the level alone: [console.error] for
    ERROR, [console.warn] for WARNING, [console.info] for INFO and
    [console.log], not [console.debug], for DEBUG. *)
Theorem console_method_by_level config scope level (message : string) meta st
    params st' :
  (level = DEBUG →
   ∃ v, env st !! "GRAPHILE_LOGGER_DEBUG" = Some v ∧ v ≠ "") →
  formatParameters config level message scope st = (Normal params, st') →
  let method := match level with
                | ERROR => c_error
                | WARNING => c_warn
                | INFO => c_info
                | DEBUG => c_log
                end in
  console (consoleLogFunction config scope level message meta st).2 =
    console st' ++ [mkConsoleCall method (format config) params] ∧
  method ≠ c_debug.
Proof.
  intros Hdbg Hp method.
  assert (Hfw : level ≠ DEBUG ∨
                env_truthy (env st !! "GRAPHILE_LOGGER_DEBUG") = true).
  { destruct (decide (level = DEBUG)) as [He|Hne]; [right|by left].
    by apply env_truthy_true, Hdbg. }
  rewrite (consoleLogFunction_forward _ _ _ _ meta _ _ _ Hfw Hp).
  split; by destruct level.
Qed.

Lemma defaultLogger_run s :
  defaultLogger s =
    let l := fresh (dom (heap (store s))) in
    let this := fresh (dom (loggers s)) in
    let st1 := (alloc_obj ∅ (store s)).2 in
    (Normal this,
     mkState st1
       (<[this := mkLogger l consoleLogFactory
                    (Some (consoleLogFunction defaultConsoleLogConfig l))]>
          (loggers s))
       (calls s ++ [CallFactory consoleLogFactory l ∅])).
Proof.
  unfold defaultLogger. unfold bind at 1, lift. rewrite alloc_obj_run.
  rewrite Logger_new_run; simpl. by rewrite obj_at_insert.
Qed.

(** C8.  With the default configuration the log function makes the
    console call [("%s: %s (%O)", LEVEL, message, scope)], where LEVEL is
    the level's string in upper case and [scope] the scope object itself,
    unless it is a DEBUG call that the flag drops; the metadata argument
    has no influence on what it does.  [consoleLogFactory] is the factory
    with this configuration.  In particular [defaultLogger.info("Hello
    world!")] calls [console.info("%s: %s (%O)", "INFO", "Hello world!",
    scope)] with [scope] an object without properties. *)
Theorem console_default_format scope level (message : string) meta st s :
  (consoleLogFactory scope st =
     (Normal (consoleLogFunction defaultConsoleLogConfig scope), st)) ∧
  (let upper := match level with
                | ERROR => "ERROR"
                | WARNING => "WARNING"
                | INFO => "INFO"
                | DEBUG => "DEBUG"
                end in
   consoleLogFunction defaultConsoleLogConfig scope level message meta st =
     if bool_decide (level = DEBUG) &&
        negb (env_truthy (env st !! "GRAPHILE_LOGGER_DEBUG"))
     then (Normal VUndefined, st)
     else (Normal VUndefined,
           with_console_call st
             (mkConsoleCall (console_method level) "%s: %s (%O)"
                [VString upper; VString message; VObject scope]))) ∧
  (∀ meta', consoleLogFunction defaultConsoleLogConfig scope level message meta st
            = consoleLogFunction defaultConsoleLogConfig scope level message
                meta' st) ∧
  (let '(res, s') :=
     (let* lg := defaultLogger in info lg "Hello world!" meta) s in
   let l := fresh (dom (heap (store s))) in
   res = Normal VUndefined ∧
   console (store s') =
     console (store s) ++
       [mkConsoleCall c_info "%s: %s (%O)"
          [VString "INFO"; VString "Hello world!"; VObject l]] ∧
   heap (store s) !! l = None ∧
   heap (store s') !! l = Some ∅).
Proof.
  split; [reflexivity|]. split; [|split; [reflexivity|]].
  - simpl. unfold consoleLogFunction, bind, gets, ret; simpl.
    destruct (bool_decide (level = DEBUG) && _); [reflexivity|].
    by destruct level.
  - unfold bind at 1. rewrite defaultLogger_run; simpl.
    unfold info. erewrite Logger_log_run; cycle 1.
    { apply lookup_insert_eq. }
    { reflexivity. }
    simpl. repeat split; try reflexivity.
    + apply fresh_heap_None.
    + apply lookup_insert_eq.
Qed.

End ConsoleProperties.

(** ** Scoping as an operation on scopes *)

Lemma spread_assoc (t a b : gmap string val) :
  spread (spread t a) b = spread t (spread a b).
Proof. rewrite !spread_union. by rewrite (assoc_L (∪)). Qed.

Lemma spread_empty_r (t : gmap string val) : spread t ∅ = t.
Proof. rewrite spread_union. apply (left_id_L ∅ (∪)). Qed.

Section ScopeProperties.

Context {U : Type}.
Implicit Types (s : State U) (st : Store U) (f : LogFunctionFactory U)
  (g : LogFunction U) (o : LoggerObj U).

(** X2.  [logger.scope({})] gives a Logger whose scope has exactly the
    parent's properties, held in a new object: not the parent's scope
    object and not the empty object that was passed. *)
Theorem scope_empty_copies_parent this o (R : gmap string val) (X : loc) s :
  loggers s !! this = Some o →
  heap (store s) !! _scope o = Some R →
  heap (store s) !! X = Some ∅ →
  factory_frame (_logFactory o) → factory_returns (_logFactory o) →
  ∃ r s',
    (let* child := Logger_scope this X in getCurrentScope child) s
      = (Normal r, s') ∧
    heap (store s') !! r = Some R ∧
    r ≠ _scope o ∧ r ≠ X.
Proof.
  intros Ho HR HX Hframe Hret.
  destruct (Logger_scope_spec _ _ _ _ _ _ Ho HR HX Hframe Hret)
    as (c & g & s1 & Hrun & Hnew & Hlg & Hm & Hk).
  set (l := fresh (dom (heap (store s)))) in *.
  assert (Hl : heap (store s) !! l = None) by apply fresh_heap_None.
  exists l, s1. split; [|split; [|split]].
  - unfold bind. rewrite Hrun.
    apply (getCurrentScope_run c (mkLogger l (_logFactory o) (Some g))).
    rewrite Hlg. apply lookup_insert_eq.
  - by rewrite Hm, spread_empty_r, spread_empty.
  - congruence.
  - congruence.
Qed.


(** X4.  Scoping twice is scoping once with the two additional scopes
    spread into one object: when [AB] holds [{...A, ...B}],
    [logger.scope(A).scope(B)] and [logger.scope(AB)] give Loggers whose
    scopes have the same properties. *)
Theorem scope_twice_is_scope_merged this o (R a b : gmap string val)
    (A B AB : loc) s :
  loggers s !! this = Some o →
  heap (store s) !! _scope o = Some R →
  heap (store s) !! A = Some a →
  heap (store s) !! B = Some b →
  heap (store s) !! AB = Some (spread (spread ∅ a) b) →
  factory_frame (_logFactory o) → factory_returns (_logFactory o) →
  ∃ c2 s2 c s' m,
    (let* c1 := Logger_scope this A in Logger_scope c1 B) s = (Normal c2, s2) ∧
    Logger_scope this AB s = (Normal c, s') ∧
    current_scope_props c2 s2 = Some m ∧
    current_scope_props c s' = Some m.
Proof.
  intros Ho HR HA HB HAB Hframe Hret.
  destruct (Logger_scope_spec _ _ _ _ _ _ Ho HR HA Hframe Hret)
    as (c1 & g1 & s1 & Hrun1 & _ & Hlg1 & Hm1 & Hk1).
  set (l1 := fresh (dom (heap (store s)))) in *.
  set (o1 := mkLogger l1 (_logFactory o) (Some g1)) in *.
  assert (Ho1 : loggers s1 !! c1 = Some o1).
  { rewrite Hlg1. apply lookup_insert_eq. }
  assert (HB1 : heap (store s1) !! B = Some b) by by eapply heap_kept_lookup.
  destruct (Logger_scope_spec c1 o1 _ _ B s1 Ho1 Hm1 HB1 Hframe Hret)
    as (c2 & g2 & s2 & Hrun2 & _ & Hlg2 & Hm2 & _).
  destruct (Logger_scope_spec _ _ _ _ _ _ Ho HR HAB Hframe Hret)
    as (c & g & s' & Hrun & _ & Hlg & Hm & _).
  exists c2, s2, c, s', (spread (spread ∅ R) (spread (spread ∅ a) b)).
  split; [|split; [exact Hrun|split]].
  - unfold bind. by rewrite Hrun1.
  - unfold current_scope_props.
    rewrite (getCurrentScope_run c2
               (mkLogger (fresh (dom (heap (store s1)))) (_logFactory o)
                  (Some g2))); [|rewrite Hlg2; apply lookup_insert_eq].
    simpl in *. rewrite Hm2. f_equal.
    rewrite !spread_empty. apply spread_assoc.
  - unfold current_scope_props.
    rewrite (getCurrentScope_run c
               (mkLogger l1 (_logFactory o) (Some g)));
      [|rewrite Hlg; apply lookup_insert_eq].
    exact Hm.
Qed.

End ScopeProperties.

(** ** Chains of scopes, and Loggers on the console backend *)

Section ChainProperties.

Context {U : Type}.
Implicit Types (s : State U) (st : Store U) (f : LogFunctionFactory U)
  (g : LogFunction U) (o : LoggerObj U).

(** [Logger_scope_spec] with the call it records. *)
Lemma Logger_scope_calls this o (R x : gmap string val) (X : loc) s :
  loggers s !! this = Some o →
  heap (store s) !! _scope o = Some R →
  heap (store s) !! X = Some x →
  factory_frame (_logFactory o) → factory_returns (_logFactory o) →
  ∃ child g s',
    Logger_scope this X s = (Normal child, s') ∧
    loggers s' !! child =
      Some (mkLogger (fresh (dom (heap (store s)))) (_logFactory o) (Some g)) ∧
    heap (store s') !! fresh (dom (heap (store s))) = Some (spread (spread ∅ R) x) ∧
    calls s' =
      calls s ++ [CallFactory (_logFactory o) (fresh (dom (heap (store s))))
                    (spread (spread ∅ R) x)] ∧
    heap_kept (store s) (store s').
Proof.
  intros Ho HR HX Hframe Hret.
  rewrite (Logger_scope_run _ _ _ _ Ho), Logger_new_run; simpl.
  rewrite obj_at_insert. unfold obj_at at 1 2 3 4. rewrite HR, HX; simpl.
  set (l := fresh (dom (heap (store s)))).
  set (st1 := mkStore (<[l := spread (spread ∅ R) x]> (heap (store s))) _ _ _).
  destruct (Hret l st1) as [g Hg]. specialize (Hframe l st1).
  destruct (_logFactory o l st1) as [c st']; simpl in *; subst c.
  exists (fresh (dom (loggers s))), g. eexists.
  split; [reflexivity|]. simpl.
  split; [apply lookup_insert_eq|].
  assert (Hk1 : heap_kept (store s) st1).
  { apply insert_subseteq, fresh_heap_None. }
  split; [|split; [reflexivity|]].
  - eapply heap_kept_lookup; [exact Hframe|]. apply lookup_insert_eq.
  - unfold heap_kept in *. by etrans.
Qed.

(** X5.  Narrowing a Logger through [scope] any number of times: the
    last Logger holds the first one's factory; its scope maps a key to
    the value given by the last additional scope that has the key, and to
    the first Logger's value when none has it; the factory was called
    once per [scope], and no log function was called; every object that
    existed before keeps its properties. *)
Theorem scope_chain_spec (Xs : list loc) (xs : list (gmap string val)) this o
    (R : gmap string val) s :
  loggers s !! this = Some o →
  heap (store s) !! _scope o = Some R →
  Forall2 (λ X x, heap (store s) !! X = Some x) Xs xs →
  factory_frame (_logFactory o) → factory_returns (_logFactory o) →
  ∃ c oc s' m cs,
    scope_chain this Xs s = (Normal c, s') ∧
    loggers s' !! c = Some oc ∧
    _logFactory oc = _logFactory o ∧
    heap (store s') !! _scope oc = Some m ∧
    (∀ k, m !! k =
          foldl (λ r (x : gmap string val),
                   match x !! k with Some v => Some v | None => r end)
                (R !! k) xs) ∧
    calls s' = calls s ++ cs ∧
    length cs = length Xs ∧
    Forall (is_call_of (_logFactory o)) cs ∧
    heap_kept (store s) (store s').
Proof.
  intros Ho HR HXs Hframe Hret.
  revert this o R s Ho HR HXs Hframe Hret.
  revert xs. induction Xs as [|X Xs IH]; intros xs this o R s Ho HR HXs Hframe Hret.
  - apply Forall2_nil_inv_l in HXs as ->.
    exists this, o, s, R, []. simpl.
    repeat split; try done.
    + by rewrite app_nil_r.
    + unfold heap_kept. reflexivity.
  - apply Forall2_cons_inv_l in HXs as (x & xs' & HX & HXs & ->).
    destruct (Logger_scope_calls _ _ _ _ _ _ Ho HR HX Hframe Hret)
      as (c1 & g1 & s1 & Hrun1 & Hc1 & Hm1 & Hcalls1 & Hk1).
    set (l1 := fresh (dom (heap (store s)))) in *.
    set (o1 := mkLogger l1 (_logFactory o) (Some g1)) in *.
    assert (HXs1 : Forall2 (λ X x, heap (store s1) !! X = Some x) Xs xs').
    { eapply Forall2_impl; [exact HXs|]. intros Y y Hy.
      by eapply heap_kept_lookup. }
    destruct (IH xs' c1 o1 _ s1 Hc1 Hm1 HXs1 Hframe Hret)
      as (c & oc & s' & m & cs & Hrun & Hc & Hf & Hm & Hlk & Hcalls & Hlen
          & Hall & Hk).
    exists c, oc, s', m,
      (CallFactory (_logFactory o) l1 (spread (spread ∅ R) x) :: cs).
    split; [simpl; unfold bind; by rewrite Hrun1|].
    split; [exact Hc|]. split; [exact Hf|]. split; [exact Hm|].
    split.
    { intros k. rewrite Hlk. simpl. f_equal.
      by rewrite spread_empty, spread_lookup. }
    split; [by rewrite Hcalls, Hcalls1, <- app_assoc|].
    split; [simpl; by rewrite Hlen|].
    split; [constructor; [reflexivity|exact Hall]|].
    unfold heap_kept in *. by etrans.
Qed.

(** What [scope] does on a Logger whose factory came from
    [makeConsoleLogFactory]. *)
Lemma Logger_scope_console_run (config : option (ConsoleLogConfig U)) this o
    (X : loc) s :
  loggers s !! this = Some o →
  _logFactory o = makeConsoleLogFactory config →
  Logger_scope this X s =
    let merged := spread (spread ∅ (obj_at (heap (store s)) (_scope o)))
                         (obj_at (heap (store s)) X) in
    let l := fresh (dom (heap (store s))) in
    let child := fresh (dom (loggers s)) in
    (Normal child,
     mkState
       (mkStore (<[l := merged]> (heap (store s))) (env (store s))
                (console (store s)) (ext (store s)))
       (<[child := mkLogger l (makeConsoleLogFactory config)
                     (Some (consoleLogFunction
                              (default defaultConsoleLogConfig config) l))]>
          (loggers s))
       (calls s ++ [CallFactory (makeConsoleLogFactory config) l merged])).
Proof.
  intros Ho Hf.
  rewrite (Logger_scope_run _ _ _ _ Ho), Logger_new_run, Hf; simpl.
  by rewrite obj_at_insert.
Qed.

(** X7.  On the console backend, with any configuration and in any
    state: [new Logger(factory, scope)], with the scope given or left
    out, cannot throw, makes no console call and leaves the environment
    alone; it allocates nothing but the Logger and, when the scope is
    left out, one empty object.  [logger.scope(X)] on a Logger holding
    such a factory cannot throw either and is as silent.  In both cases
    the new Logger's log function is the console log function closed
    over that Logger's own scope object. *)
Theorem console_backed_construction_is_silent
    (config : option (ConsoleLogConfig U)) (scope : option loc) s :
  let cfg := default defaultConsoleLogConfig config in
  let f := makeConsoleLogFactory config in
  (∃ lg l s',
     Logger_new f scope s = (Normal lg, s') ∧
     console (store s') = console (store s) ∧
     env (store s') = env (store s) ∧
     ext (store s') = ext (store s) ∧
     match scope with
     | Some sc => l = sc ∧ heap (store s') = heap (store s)
     | None => heap (store s) !! l = None ∧
               heap (store s') = <[l := ∅]> (heap (store s))
     end ∧
     loggers s !! lg = None ∧
     loggers s' !! lg = Some (mkLogger l f (Some (consoleLogFunction cfg l)))) ∧
  (∀ this o (X : loc),
     loggers s !! this = Some o →
     _logFactory o = f →
     ∃ child l s',
       Logger_scope this X s = (Normal child, s') ∧
       console (store s') = console (store s) ∧
       env (store s') = env (store s) ∧
       ext (store s') = ext (store s) ∧
       heap (store s) !! l = None ∧
       loggers s !! child = None ∧
       loggers s' !! child =
         Some (mkLogger l f (Some (consoleLogFunction cfg l)))).
Proof.
  intros cfg f. split.
  - destruct scope as [sc|].
    + rewrite Logger_new_run; simpl.
      eexists _, sc, _. split; [reflexivity|]. simpl.
      repeat split; try reflexivity.
      * apply fresh_loggers_None.
      * apply lookup_insert_eq.
    + rewrite Logger_new_default, Logger_new_run; simpl.
      eexists _, _, _. split; [reflexivity|]. simpl.
      repeat split; try reflexivity.
      * apply fresh_heap_None.
      * apply fresh_loggers_None.
      * apply lookup_insert_eq.
  - intros this o X Ho Hf.
    rewrite (Logger_scope_console_run config _ _ _ _ Ho Hf); simpl.
    eexists _, _, _. split; [reflexivity|]. simpl.
    repeat split; try reflexivity.
    + apply fresh_heap_None.
    + apply fresh_loggers_None.
    + apply lookup_insert_eq.
Qed.

(** X9.  A Logger scoped from one on the default console backend prints
    its own merged scope: [logger.scope(X).info(message)] makes the one
    console call [console.info("%s: %s (%O)", "INFO", message, m)], [m]
    being a new object that has [X]'s properties over those of the
    parent's scope. *)
Theorem scoped_console_logger_prints_merged_scope this o
    (R x : gmap string val) (X : loc) (message : string) meta s :
  loggers s !! this = Some o →
  _logFactory o = consoleLogFactory →
  heap (store s) !! _scope o = Some R →
  heap (store s) !! X = Some x →
  ∃ l m s',
    (let* child := Logger_scope this X in info child message meta) s
      = (Normal VUndefined, s') ∧
    console (store s') =
      console (store s) ++
        [mkConsoleCall c_info "%s: %s (%O)"
           [VString "INFO"; VString message; VObject l]] ∧
    heap (store s) !! l = None ∧
    heap (store s') !! l = Some m ∧
    ∀ k, m !! k = match x !! k with
                  | Some v => Some v
                  | None => R !! k
                  end.
Proof.
  intros Ho Hf HR HX.
  exists (fresh (dom (heap (store s)))), (spread (spread ∅ R) x).
  unfold bind at 1.
  rewrite (Logger_scope_console_run None _ _ _ _ Ho Hf); simpl.
  unfold info. erewrite Logger_log_run; cycle 1.
  { apply lookup_insert_eq. }
  { reflexivity. }
  simpl. eexists. split; [reflexivity|]. simpl.
  split; [reflexivity|]. split; [apply fresh_heap_None|].
  unfold obj_at. rewrite HR, HX; simpl.
  split; [apply lookup_insert_eq|].
  intros k. by rewrite spread_empty, spread_lookup.
Qed.

(** X1.  For a Logger whose scope object has no property when
    [scope(S)] is called (as [defaultLogger]'s has until something is
    written to it through [getCurrentScope()]), and a factory that
    returns and leaves existing objects as they are:
    [logger.scope(S).getCurrentScope()] has exactly the properties of
    [S], in a new object; [S] itself is not kept, and is left as it
    was. *)
Theorem empty_scope_round_trip this o (S : loc) (x : gmap string val) s :
  loggers s !! this = Some o →
  heap (store s) !! _scope o = Some ∅ →
  heap (store s) !! S = Some x →
  factory_frame (_logFactory o) → factory_returns (_logFactory o) →
  ∃ r s',
    (let* child := Logger_scope this S in getCurrentScope child) s
      = (Normal r, s') ∧
    heap (store s') !! r = Some x ∧
    r ≠ S ∧
    heap (store s') !! S = Some x.
Proof.
  intros Ho HR HS Hframe Hret.
  destruct (Logger_scope_spec _ _ _ _ _ _ Ho HR HS Hframe Hret)
    as (c & g & s1 & Hrun & Hnew & Hlg & Hm & Hk).
  set (l := fresh (dom (heap (store s)))) in *.
  assert (Hl : heap (store s) !! l = None) by apply fresh_heap_None.
  exists l, s1. split; [|split; [|split]].
  - unfold bind. rewrite Hrun.
    apply (getCurrentScope_run c (mkLogger l (_logFactory o) (Some g))).
    rewrite Hlg. apply lookup_insert_eq.
  - by rewrite Hm, !spread_empty.
  - congruence.
  - by eapply heap_kept_lookup.
Qed.

End ChainProperties.

(** ** Logging through a console-backed Logger *)

Section ConsoleLogging.

Context {U : Type}.
Implicit Types (s : State U) (st : Store U) (config : ConsoleLogConfig U)
  (o : LoggerObj U).

Lemma level_method_run level this (message : string) meta s :
  level_method level this message meta s = Logger_log this level message meta s.
Proof. by destruct level. Qed.

Lemma consoleLogFunction_throw config scope level (message : string) meta st
    e st' :
  level ≠ DEBUG ∨ env_truthy (env st !! "GRAPHILE_LOGGER_DEBUG") = true →
  formatParameters config level message scope st = (Throw e, st') →
  consoleLogFunction config scope level message meta st = (Throw e, st').
Proof.
  intros Hfw Hp. unfold consoleLogFunction.
  unfold bind at 1, gets.
  assert (Hgate : bool_decide (level = DEBUG) &&
                  negb (env_truthy (env st !! "GRAPHILE_LOGGER_DEBUG")) = false).
  { destruct Hfw as [Hne | ->].
    - by rewrite bool_decide_eq_false_2.
    - apply andb_false_r. }
  rewrite Hgate. unfold bind at 1. by rewrite Hp.
Qed.

(** X6.  When a configured [formatParameters] throws on a call that is
    not dropped, the Logger's level method throws the same value; the
    backend makes no console call (the store is the one
    [formatParameters] left) and every Logger is as it was. *)
Theorem formatParameters_throw_propagates config (sc : loc) this o level
    (message : string) meta s e st' :
  loggers s !! this = Some o →
  log o = Some (consoleLogFunction config sc) →
  (level = DEBUG →
   ∃ v, env (store s) !! "GRAPHILE_LOGGER_DEBUG" = Some v ∧ v ≠ "") →
  formatParameters config level message sc (store s) = (Throw e, st') →
  ∃ s',
    level_method level this message meta s = (Throw e, s') ∧
    store s' = st' ∧
    loggers s' = loggers s.
Proof.
  intros Ho Hg Hdbg Hp.
  rewrite level_method_run, (Logger_log_run _ _ _ _ _ _ _ Ho Hg).
  assert (Hfw : level ≠ DEBUG ∨
                env_truthy (env (store s) !! "GRAPHILE_LOGGER_DEBUG") = true).
  { destruct (decide (level = DEBUG)) as [He|Hne]; [right|by left].
    by apply env_truthy_true, Hdbg. }
  rewrite (consoleLogFunction_throw _ _ _ _ meta _ _ _ Hfw Hp).
  by eexists.
Qed.

(** X10.  Logging through a Logger on the default console backend, at any
    level: the call returns [undefined] and never throws; it changes no
    object, no environment variable and no Logger, so the Logger's scope
    reads as before; it makes at most one console call; and it calls the
    bound log function once. *)
Theorem default_console_logging_is_benign (sc : loc) this o level
    (message : string) meta s :
  loggers s !! this = Some o →
  log o = Some (consoleLogFunction defaultConsoleLogConfig sc) →
  ∃ s',
    level_method level this message meta s = (Normal VUndefined, s') ∧
    heap (store s') = heap (store s) ∧
    env (store s') = env (store s) ∧
    ext (store s') = ext (store s) ∧
    loggers s' = loggers s ∧
    current_scope_props this s' = current_scope_props this s ∧
    (console (store s') = console (store s) ∨
     ∃ c, console (store s') = console (store s) ++ [c]) ∧
    calls s' =
      calls s ++ [CallLog (consoleLogFunction defaultConsoleLogConfig sc)
                    level message meta].
Proof.
  intros Ho Hg.
  rewrite level_method_run, (Logger_log_run _ _ _ _ _ _ _ Ho Hg).
  destruct (decide (level = DEBUG ∧
              env_truthy (env (store s) !! "GRAPHILE_LOGGER_DEBUG") = false))
    as [[-> Hflag]|Hn].
  - rewrite (consoleLogFunction_drop _ _ _ _ _ Hflag).
    eexists. split; [reflexivity|]. simpl.
    repeat split; try reflexivity.
    + unfold current_scope_props.
      rewrite (getCurrentScope_run _ _ s Ho).
      erewrite getCurrentScope_run; [reflexivity|exact Ho].
    + by left.
  - assert (Hfw : level ≠ DEBUG ∨
                  env_truthy (env (store s) !! "GRAPHILE_LOGGER_DEBUG") = true).
    { destruct (decide (level = DEBUG)) as [He|Hne]; [|by left].
      right. destruct (env_truthy _); [done|]. by destruct Hn. }
    erewrite (consoleLogFunction_forward defaultConsoleLogConfig); cycle 1.
    { exact Hfw. }
    { reflexivity. }
    eexists. split; [reflexivity|]. simpl.
    repeat split; try reflexivity.
    + unfold current_scope_props.
      rewrite (getCurrentScope_run _ _ s Ho).
      erewrite getCurrentScope_run; [reflexivity|exact Ho].
    + right. by eexists.
Qed.

(** X8.  The debug flag is read when a message is logged, not when the
    Logger is built: after [defaultLogger] exists, setting
    GRAPHILE_LOGGER_DEBUG to a non-empty string makes its [debug] print
    (through [console.log]), setting it to the empty string or deleting
    it makes [debug] print nothing, whatever the environment was
    before. *)
Theorem debug_flag_read_at_call (v : string) (message : string) meta s :
  let l := fresh (dom (heap (store s))) in
  let printed :=
    [mkConsoleCall c_log "%s: %s (%O)"
       [VString "DEBUG"; VString message; VObject l]] in
  (let '(res, s') :=
     (let* lg := defaultLogger in
      let* _ := lift (env_set "GRAPHILE_LOGGER_DEBUG" v) in
      debug lg message meta) s in
   res = Normal VUndefined ∧
   console (store s') =
     console (store s) ++ (if String.eqb v "" then [] else printed)) ∧
  (let '(res, s') :=
     (let* lg := defaultLogger in
      let* _ := lift (env_unset "GRAPHILE_LOGGER_DEBUG") in
      debug lg message meta) s in
   res = Normal VUndefined ∧ console (store s') = console (store s)).
Proof.
  intros l printed. split.
  - unfold bind at 1. rewrite defaultLogger_run; simpl.
    unfold bind at 1; simpl.
    unfold debug. erewrite Logger_log_run; cycle 1.
    { apply lookup_insert_eq. }
    { reflexivity. }
    simpl. destruct (String.eqb v "") eqn:Hv.
    + rewrite consoleLogFunction_drop; simpl.
      * by rewrite app_nil_r.
      * rewrite lookup_insert_eq; simpl. by rewrite Hv.
    + erewrite (consoleLogFunction_forward defaultConsoleLogConfig); cycle 1.
      { right; simpl. rewrite lookup_insert_eq; simpl. by rewrite Hv. }
      { reflexivity. }
      done.
  - unfold bind at 1. rewrite defaultLogger_run; simpl.
    unfold bind at 1; simpl.
    unfold debug. erewrite Logger_log_run; cycle 1.
    { apply lookup_insert_eq. }
    { reflexivity. }
    simpl. rewrite consoleLogFunction_drop; simpl; [done|].
    by rewrite lookup_delete_eq.
Qed.

End ConsoleLogging.

(** * Concrete runs *)

Example demo_logger_at : loggers demo_state !! 1%positive = Some demo_logger.
Proof. vm_compute. reflexivity. Qed.

(** The README's worker example on this heap: the scope of the job
    Logger.  Its [details] is the object at 6, which still has the one
    property it had. *)
Example demo_chain_scope :
  (let* c1 := Logger_scope 1%positive 2%positive in
   let* c2 := Logger_scope c1 3%positive in
   let* r := getCurrentScope c2 in
   gets (λ s, (obj_at (heap (store s)) r, obj_at (heap (store s)) 6%positive)))
    demo_state
  = (Normal ({[ "label" := VString "core"; "workerId" := VString "w1";
                "taskIdentifier" := VString "t"; "jobId" := VNumber 84;
                "details" := VObject 6 ]},
             {[ "host" := VString "b" ]}),
     (Logger_scope 2%positive 3%positive
        (Logger_scope 1%positive 2%positive demo_state).2).2).
Proof. vm_compute. reflexivity. Qed.

(** The child logs through the function its own factory call returned:
    its console calls carry the merged scope (the new object at 7), the
    parent's still carry the parent's scope. *)
Example demo_child_has_own_log :
  console (store ((let* c := Logger_scope 1%positive 2%positive in
                   let* _ := info c "from child" None in
                   info 1%positive "from parent" None) demo_state).2)
  = [mkConsoleCall c_info "%s: %s (%O)"
       [VString "INFO"; VString "from child"; VObject 7];
     mkConsoleCall c_info "%s: %s (%O)"
       [VString "INFO"; VString "from parent"; VObject 1]].
Proof. vm_compute. reflexivity. Qed.

Lemma scope_chain_is_shallow_merge_witness :
  ∃ r s' m,
    (let* c1 := Logger_scope 1%positive 2%positive in
     let* c2 := Logger_scope c1 3%positive in
     getCurrentScope c2) demo_state = (Normal r, s') ∧
    heap (store s') !! r = Some m ∧
    (∀ k, m !! k = match demo_B !! k with
                   | Some v => Some v
                   | None => match demo_A !! k with
                             | Some v => Some v
                             | None => demo_root !! k
                             end
                   end) ∧
    (∀ k l, demo_B !! k = Some (VObject l) → m !! k = Some (VObject l)) ∧
    heap_kept (store demo_state) (store s').
Proof.
  apply (scope_chain_is_shallow_merge 1%positive demo_logger
           demo_root demo_A demo_B 2%positive 3%positive demo_state).
  - vm_compute; reflexivity.
  - vm_compute; reflexivity.
  - vm_compute; reflexivity.
  - vm_compute; reflexivity.
  - apply makeConsoleLogFactory_frame.
  - apply makeConsoleLogFactory_returns.
Defined.

(** On [demo_state], writing [workerId] through the object that
    [getCurrentScope()] returned changes what the Logger's scope reads
    as: the getter is not defensive. *)
Lemma getCurrentScope_not_defensive :
  ¬ getCurrentScope_is_defensive 1%positive demo_state.
Proof.
  intros H.
  specialize (H 1%positive demo_state "workerId" (VString "changed") eq_refl).
  assert (Hk := f_equal (λ m, m ≫= (.!! "workerId")) H).
  vm_compute in Hk. discriminate Hk.
Qed.

Lemma getCurrentScope_returns_alias_witness :
  getCurrentScope 1%positive demo_state = (Normal 1%positive, demo_state) ∧
  ∀ (k : string) (v : val),
    let s2 := (lift (obj_set 1%positive k v) demo_state).2 in
    getCurrentScope 1%positive s2 = (Normal 1%positive, s2) ∧
    obj_at (heap (store s2)) 1%positive =
      <[k := v]> (obj_at (heap (store demo_state)) 1%positive).
Proof.
  apply (getCurrentScope_returns_alias 1%positive demo_logger demo_state).
  vm_compute; reflexivity.
Defined.

Lemma level_methods_pass_through_witness :
  warn 1%positive "careful" None demo_state =
    (let '(r, st') := demo_log WARNING "careful" None (store demo_state) in
     (r, mkState st' (loggers demo_state)
           (calls demo_state ++ [CallLog demo_log WARNING "careful" None]))).
Proof.
  apply (level_methods_pass_through 1%positive demo_logger demo_log
           "careful" None demo_state).
  - vm_compute; reflexivity.
  - reflexivity.
Defined.

Lemma scope_reinvokes_factory_witness :
  let parent := obj_at (heap (store demo_state)) 1%positive in
  let extra := obj_at (heap (store demo_state)) 2%positive in
  let l := fresh (dom (heap (store demo_state))) in
  ∃ merged st1,
    (∀ k, merged !! k = match extra !! k with
                        | Some v => Some v
                        | None => parent !! k
                        end) ∧
    heap (store demo_state) !! l = None ∧
    st1 = mkStore (<[l := merged]> (heap (store demo_state)))
                  (env (store demo_state)) (console (store demo_state))
                  (ext (store demo_state)) ∧
    let '(res, s') := Logger_scope 1%positive 2%positive demo_state in
    calls s' = calls demo_state ++ [CallFactory consoleLogFactory l merged] ∧
    store s' = (consoleLogFactory l st1).2 ∧
    match (consoleLogFactory l st1).1 with
    | Normal g =>
        ∃ child c, res = Normal child ∧ loggers s' !! child = Some c ∧
                   _logFactory c = consoleLogFactory ∧ log c = Some g ∧
                   _scope c = l
    | Throw e => res = Throw e
    end.
Proof.
  apply (scope_reinvokes_factory 1%positive demo_logger 2%positive demo_state).
  vm_compute; reflexivity.
Defined.

(** On a Logger whose factory records, in the parent's scope object, the
    scope it was last called with, [scope] changes what the parent's
    scope reads as. *)
Lemma scope_alters_parent_under_writing_factory :
  ¬ scope_keeps_parent_scope 1%positive 2%positive tracking_state.
Proof.
  intros H. unfold scope_keeps_parent_scope in H.
  assert (Hk := f_equal (λ m, m ≫= (.!! "last")) H).
  vm_compute in Hk. discriminate Hk.
Qed.

Lemma scope_leaves_parent_unchanged_witness :
  let l := fresh (dom (heap (store demo_state))) in
  ∃ st1,
    heap (store demo_state) !! l = None ∧
    (∀ l', l' ≠ l → heap st1 !! l' = heap (store demo_state) !! l') ∧
    let '(res, s') := Logger_scope 1%positive 2%positive demo_state in
    store s' = (consoleLogFactory l st1).2 ∧
    loggers s' !! 1%positive = Some demo_logger ∧
    getCurrentScope 1%positive s' = (Normal 1%positive, s') ∧
    (∀ t ot, loggers demo_state !! t = Some ot → loggers s' !! t = Some ot) ∧
    (heap_kept st1 (consoleLogFactory l st1).2 →
     heap (store s') !! 1%positive = Some demo_root) ∧
    match (consoleLogFactory l st1).1 with
    | Normal g =>
        ∃ child c, res = Normal child ∧ child ≠ 1%positive ∧
                   loggers demo_state !! child = None ∧
                   loggers s' !! child = Some c ∧
                   _scope c = l ∧ _scope c ≠ 1%positive
    | Throw e => res = Throw e
    end.
Proof.
  apply (scope_leaves_parent_unchanged 1%positive demo_logger demo_root
           2%positive demo_state).
  - vm_compute; reflexivity.
  - vm_compute; reflexivity.
Defined.

(** With a factory that writes [workerId] on the scope it is handed,
    [logger.scope(A).scope(B).getCurrentScope()] has "hijacked" under
    [workerId], where the merge of the three scopes has [A]'s "w1". *)
Lemma scope_chain_not_merge_under_writing_factory :
  ¬ scope_chain_merged_key 1%positive 2%positive 3%positive hijacking_state
      "workerId".
Proof.
  intros H. vm_compute in H. discriminate H.
Qed.

Lemma scope_undefined_overrides_witness :
  demo_root !! "workerId" = Some (VString "w0") ∧
  let '(res, s') := Logger_scope 1%positive 4%positive demo_state in
  ∃ l merged st1,
    merged !! "workerId" = Some VUndefined ∧
    heap st1 !! l = Some merged ∧
    calls s' = calls demo_state ++ [CallFactory consoleLogFactory l merged] ∧
    store s' = (consoleLogFactory l st1).2 ∧
    match res with
    | Normal child => ∃ c, loggers s' !! child = Some c ∧ _scope c = l
    | Throw _ => True
    end.
Proof.
  split; [vm_compute; reflexivity|].
  apply (scope_undefined_overrides 1%positive demo_logger 4%positive
           demo_undef "workerId" demo_state).
  - vm_compute; reflexivity.
  - vm_compute; reflexivity.
  - vm_compute; reflexivity.
Defined.

(** ** The console backend on concrete environments *)

(** With the variable present but empty, a DEBUG call on the default
    backend makes no console call. *)
Lemma debug_dropped_when_flag_empty :
  ¬ debug_forwarded_if_present store_flag_empty.
Proof.
  intros H. apply (H ltac:(by eexists) 1%positive "verbose" None).
  vm_compute. reflexivity.
Qed.

Lemma console_debug_gate_witness :
  consoleLogFunction defaultConsoleLogConfig 1%positive DEBUG "verbose" None
    demo_store = (Normal VUndefined, demo_store) ∧
  ∃ m, consoleLogFunction defaultConsoleLogConfig 1%positive DEBUG "verbose"
         None store_flag_one =
       (Normal VUndefined,
        with_console_call store_flag_one
          (mkConsoleCall m "%s: %s (%O)"
             [VString "DEBUG"; VString "verbose"; VObject 1])).
Proof.
  split.
  - apply (proj1 (console_debug_gate defaultConsoleLogConfig 1%positive DEBUG
                    "verbose" None demo_store)).
    + reflexivity.
    + left. vm_compute; reflexivity.
  - apply (proj2 (console_debug_gate defaultConsoleLogConfig 1%positive DEBUG
                    "verbose" None store_flag_one)).
    + right. exists "1". split; [vm_compute; reflexivity|discriminate].
    + reflexivity.
Defined.

Lemma console_method_by_level_witness :
  console (consoleLogFunction defaultConsoleLogConfig 1%positive DEBUG
             "verbose" None store_flag_one).2 =
    console store_flag_one ++
      [mkConsoleCall c_log "%s: %s (%O)"
         [VString "DEBUG"; VString "verbose"; VObject 1]] ∧
  c_log ≠ c_debug.
Proof.
  apply (console_method_by_level defaultConsoleLogConfig 1%positive DEBUG
           "verbose" None store_flag_one
           [VString "DEBUG"; VString "verbose"; VObject 1] store_flag_one).
  - intros _. exists "1". split; [vm_compute; reflexivity|discriminate].
  - reflexivity.
Defined.

(** ** Runs for the properties of scoping and of console logging *)

Lemma empty_scope_round_trip_witness :
  ∃ r s',
    (let* child := Logger_scope 2%positive 3%positive in
     getCurrentScope child) default_state = (Normal r, s') ∧
    heap (store s') !! r = Some demo_B ∧
    r ≠ 3%positive ∧
    heap (store s') !! 3%positive = Some demo_B.
Proof.
  apply (empty_scope_round_trip 2%positive default_logger 3%positive demo_B
           default_state).
  - vm_compute; reflexivity.
  - vm_compute; reflexivity.
  - vm_compute; reflexivity.
  - apply makeConsoleLogFactory_frame.
  - apply makeConsoleLogFactory_returns.
Defined.

Lemma scope_empty_copies_parent_witness :
  ∃ r s',
    (let* child := Logger_scope 1%positive 7%positive in
     getCurrentScope child) demo_state_more = (Normal r, s') ∧
    heap (store s') !! r = Some demo_root ∧
    r ≠ 1%positive ∧ r ≠ 7%positive.
Proof.
  apply (scope_empty_copies_parent 1%positive demo_logger demo_root
           7%positive demo_state_more).
  - vm_compute; reflexivity.
  - vm_compute; reflexivity.
  - vm_compute; reflexivity.
  - apply makeConsoleLogFactory_frame.
  - apply makeConsoleLogFactory_returns.
Defined.


Lemma scope_twice_is_scope_merged_witness :
  ∃ c2 s2 c s' m,
    (let* c1 := Logger_scope 1%positive 2%positive in
     Logger_scope c1 3%positive) demo_state_more = (Normal c2, s2) ∧
    Logger_scope 1%positive 8%positive demo_state_more = (Normal c, s') ∧
    current_scope_props c2 s2 = Some m ∧
    current_scope_props c s' = Some m.
Proof.
  apply (scope_twice_is_scope_merged 1%positive demo_logger demo_root
           demo_A demo_B 2%positive 3%positive 8%positive demo_state_more).
  - vm_compute; reflexivity.
  - vm_compute; reflexivity.
  - vm_compute; reflexivity.
  - vm_compute; reflexivity.
  - vm_compute; reflexivity.
  - apply makeConsoleLogFactory_frame.
  - apply makeConsoleLogFactory_returns.
Defined.

Lemma scope_chain_spec_witness :
  ∃ c oc s' m cs,
    scope_chain 1%positive [2%positive; 3%positive; 4%positive] demo_state
      = (Normal c, s') ∧
    loggers s' !! c = Some oc ∧
    _logFactory oc = consoleLogFactory ∧
    heap (store s') !! _scope oc = Some m ∧
    (∀ k, m !! k =
          foldl (λ r (x : gmap string val),
                   match x !! k with Some v => Some v | None => r end)
                (demo_root !! k) [demo_A; demo_B; demo_undef]) ∧
    calls s' = calls demo_state ++ cs ∧
    length cs = 3 ∧
    Forall (is_call_of consoleLogFactory) cs ∧
    heap_kept (store demo_state) (store s').
Proof.
  apply (scope_chain_spec [2%positive; 3%positive; 4%positive]
           [demo_A; demo_B; demo_undef] 1%positive demo_logger demo_root
           demo_state).
  - vm_compute; reflexivity.
  - vm_compute; reflexivity.
  - repeat constructor; vm_compute; reflexivity.
  - apply makeConsoleLogFactory_frame.
  - apply makeConsoleLogFactory_returns.
Defined.

Lemma formatParameters_throw_propagates_witness :
  ∃ s',
    warn 1%positive "careful" None throwing_state
      = (Throw (VString "boom"), s') ∧
    store s' = store throwing_state ∧
    loggers s' = loggers throwing_state.
Proof.
  apply (formatParameters_throw_propagates throwing_config 1%positive
           1%positive throwing_logger WARNING "careful" None throwing_state
           (VString "boom") (store throwing_state)).
  - vm_compute; reflexivity.
  - reflexivity.
  - discriminate.
  - reflexivity.
Defined.

Lemma console_backed_construction_is_silent_witness :
  (∃ lg l s',
     Logger_new consoleLogFactory None (mkState demo_store ∅ []) = (Normal lg, s') ∧
     console (store s') = [] ∧
     heap demo_store !! l = None ∧
     heap (store s') = <[l := ∅]> (heap demo_store) ∧
     loggers s' !! lg =
       Some (mkLogger l consoleLogFactory
               (Some (consoleLogFunction defaultConsoleLogConfig l)))) ∧
  (∃ child l s',
     Logger_scope 1%positive 2%positive demo_state = (Normal child, s') ∧
     console (store s') = console (store demo_state) ∧
     env (store s') = env (store demo_state) ∧
     ext (store s') = ext (store demo_state) ∧
     heap (store demo_state) !! l = None ∧
     loggers demo_state !! child = None ∧
     loggers s' !! child =
       Some (mkLogger l consoleLogFactory
               (Some (consoleLogFunction defaultConsoleLogConfig l)))).
Proof.
  split.
  - destruct (proj1 (console_backed_construction_is_silent None None
                       (mkState demo_store ∅ [])))
      as (lg & l & s' & Hrun & Hcon & _ & _ & [Hl Hh] & _ & Hlg).
    exists lg, l, s'. repeat split; assumption.
  - apply (proj2 (console_backed_construction_is_silent None None demo_state)
             1%positive demo_logger 2%positive).
    + vm_compute; reflexivity.
    + reflexivity.
Defined.

Lemma scoped_console_logger_prints_merged_scope_witness :
  ∃ l m s',
    (let* child := Logger_scope 1%positive 2%positive in
     info child "Looking for jobs..." None) demo_state
      = (Normal VUndefined, s') ∧
    console (store s') =
      console (store demo_state) ++
        [mkConsoleCall c_info "%s: %s (%O)"
           [VString "INFO"; VString "Looking for jobs..."; VObject l]] ∧
    heap (store demo_state) !! l = None ∧
    heap (store s') !! l = Some m ∧
    ∀ k, m !! k = match demo_A !! k with
                  | Some v => Some v
                  | None => demo_root !! k
                  end.
Proof.
  apply (scoped_console_logger_prints_merged_scope 1%positive demo_logger
           demo_root demo_A 2%positive "Looking for jobs..." None demo_state).
  - vm_compute; reflexivity.
  - reflexivity.
  - vm_compute; reflexivity.
  - vm_compute; reflexivity.
Defined.

Lemma default_console_logging_is_benign_witness :
  ∃ s',
    debug 1%positive "verbose" None demo_state = (Normal VUndefined, s') ∧
    heap (store s') = heap (store demo_state) ∧
    env (store s') = env (store demo_state) ∧
    ext (store s') = ext (store demo_state) ∧
    loggers s' = loggers demo_state ∧
    current_scope_props 1%positive s' = current_scope_props 1%positive demo_state ∧
    (console (store s') = console (store demo_state) ∨
     ∃ c, console (store s') = console (store demo_state) ++ [c]) ∧
    calls s' = calls demo_state ++ [CallLog demo_log DEBUG "verbose" None].
Proof.
  apply (default_console_logging_is_benign 1%positive 1%positive demo_logger
           DEBUG "verbose" None demo_state).
  - vm_compute; reflexivity.
  - reflexivity.
Defined.
